(** * ChronoMerge PDF: the chronological merge of [src/App.tsx]

    A shallow embedding of the state of the [App] component (the file list,
    the merging flag, the merged output and the error message) and of the
    operations that change it: [addFiles], [removeFile], the "Clear All"
    handler and [mergeFiles].

    Conventions.
    - A JavaScript [number] holding a time stamp ([File.lastModified], an
      integral number of milliseconds) is a [Z]; a [number] holding a length
      on a page is an exact rational [Q], so the geometry below is the one of
      the source computed without rounding.
    - Division is the division of [Q], which follows JavaScript for every
      divisor but zero: an image with a zero native size (on which
      JavaScript yields [Infinity] or [NaN], and [drawImage] throws on
      [NaN]) is outside the model: the statements on the placed size, and
      the statement that the loop assembles a document when no item is
      malformed, carry the hypothesis that the native sizes are positive.
    - A promise that rejects, or a call that throws, is [None] in the option
      monad; the [catch] of [mergeFiles] turns every [None] into one message.
    - Every handler runs as one atomic transition of the state: the
      interleaving of an in-flight [mergeFiles] with other handlers is not
      part of this model.
    - pdf-lib and the browser are not part of the repository: what the
      source calls from them is a parameter of the section [App], except for
      the three small functions whose result the source consumes
      structurally ([getPageIndices], [copyPages], [scaleToFit]). *)

From Stdlib Require Import List ZArith QArith Qminmax Qabs String Bool Lia.
From Stdlib Require Import Sorted Permutation Field Lqa.
Import ListNotations.

Local Open Scope string_scope.
Local Open Scope list_scope.

(** ** The option monad standing for [try]/[throw] *)

Definition bind {A B : Type} (m : option A) (k : A -> option B) : option B :=
  match m with
  | Some a => k a
  | None => None
  end.

Notation "x <- m ;; k" := (bind m (fun x => k))
  (at level 61, m at next level, right associativity).

Fixpoint mapM {A B : Type} (f : A -> option B) (l : list A) : option (list B) :=
  match l with
  | [] => Some []
  | a :: l' => b <- f a ;; bs <- mapM f l' ;; Some (b :: bs)
  end.

(** ** Data model *)

Definition Bytes := list Byte.byte.

(** The browser's [File]: the fields the source reads. *)
Module File.
Record t := mk {
  name : string;
  type : string;          (* the declared media type *)
  lastModified : Z;
  arrayBuffer : Bytes
}.
End File.

Inductive FileType := pdf | image.

(** [interface FileWithMetadata] *)
Module FileWithMetadata.
Record t := mk {
  id : string;
  file : File.t;
  type : FileType;
  timestamp : Z;
  preview : option string
}.
End FileWithMetadata.

(** A [{ width, height }] object: a page size or the result of a scaling. *)
Module Size.
Record t := mk { width : Q; height : Q }.
End Size.

(** pdf-lib's [PDFImage]: only its native dimensions are observed. *)
Module PDFImage.
Record t := mk { width : Q; height : Q }.
End PDFImage.

(** The options object handed to [page.drawImage]. *)
Module DrawOptions.
Record t := mk { x : Q; y : Q; width : Q; height : Q }.
End DrawOptions.

(** ** [Array.prototype.sort]

    ECMAScript specifies [sort] as a stable sort driven by the sign of the
    comparator.  A stable insertion sort is the model; [stable_sort_unique]
    below shows that the result does not depend on the algorithm. *)

Section Sort.
Context {A : Type}.
Variable cmp : A -> A -> Z.

Fixpoint insertBy (a : A) (l : list A) : list A :=
  match l with
  | [] => [a]
  | b :: l' => if (cmp a b <=? 0)%Z then a :: l else b :: insertBy a l'
  end.

Definition sortBy (l : list A) : list A := fold_right insertBy [] l.
End Sort.

(** The comparator of [addFiles]: [(a, b) => a.timestamp - b.timestamp]. *)
Definition compareTimestamp (a b : FileWithMetadata.t) : Z :=
  (FileWithMetadata.timestamp a - FileWithMetadata.timestamp b)%Z.

Definition timestampLe (a b : FileWithMetadata.t) : Prop :=
  (FileWithMetadata.timestamp a <= FileWithMetadata.timestamp b)%Z.

Definition hasTimestamp (t : Z) (a : FileWithMetadata.t) : bool :=
  (FileWithMetadata.timestamp a =? t)%Z.

(** ** What the source takes from pdf-lib, structurally *)

(** Modelled from the spec: pdf-lib's [PDFDocument.getPageIndices] is not
    under src/; a loaded document is the list of its pages "in original
    internal order", and its indices are [0 .. n-1]. *)
Definition getPageIndices {P : Type} (pdfDoc : list P) : list nat :=
  seq 0 (List.length pdfDoc).

(** Modelled from the spec: pdf-lib's [PDFDocument.copyPages] is not under
    src/; it yields "one OutputPage per source page", the page at each
    requested index, and throws on an index that is out of range. *)
Definition copyPages {P : Type} (pdfDoc : list P) (indices : list nat)
  : option (list P) :=
  mapM (fun i => nth_error pdfDoc i) indices.

(** Modelled from the spec: pdf-lib's [PDFImage.scaleToFit] is not under
    src/; "scale factor = min(availableWidth/imageWidth,
    availableHeight/imageHeight)", applied to both native dimensions with no
    cap at 1. *)
Definition scaleToFit (image : PDFImage.t) (width height : Q) : Size.t :=
  let imgWidthScale := (width / PDFImage.width image)%Q in
  let imgHeightScale := (height / PDFImage.height image)%Q in
  let scale := Qmin imgWidthScale imgHeightScale in
  Size.mk (PDFImage.width image * scale)%Q (PDFImage.height image * scale)%Q.


(** ** The component state *)

Record AppState := mkState {
  files : list FileWithMetadata.t;
  isMerging : bool;
  mergedPdfUrl : option string;
  error : option string
}.

Definition initialState : AppState := mkState [] false None None.

Definition skippedMessage : string :=
  "Some files were skipped. Only PDF and Image files are supported.".

Definition mergeErrorMessage : string :=
  "An error occurred while merging the files. Please ensure all files are valid.".

Fixpoint mapi_from {A B : Type} (f : nat -> A -> B) (k : nat) (l : list A)
  : list B :=
  match l with
  | [] => []
  | a :: l' => f k a :: mapi_from f (S k) l'
  end.

(** A page of the document under construction: a page copied from a source
    PDF, or a fresh page on which one image was drawn. *)
Inductive OutputPage (PDFPage : Type) :=
| CopiedPage (page : PDFPage)
| ImagePage (size : Size.t) (image : PDFImage.t) (options : DrawOptions.t).

Arguments CopiedPage {PDFPage} page.
Arguments ImagePage {PDFPage} size image options.

(** ** A small instance of the parameters, for the examples

    A source PDF is the byte [%] followed by one byte per page; a JPEG is
    [0xff], a PNG is [0x89], each followed by its width and its height. *)

Definition byteQ (b : Byte.byte) : Q := inject_Z (Z.of_N (Byte.to_N b)).

Definition sampleLoad (b : Bytes) : option (list nat) :=
  match b with
  | Byte.x25 :: pages => Some (map (fun c => N.to_nat (Byte.to_N c)) pages)
  | _ => None
  end.

Definition sampleEmbedJpg (b : Bytes) : option PDFImage.t :=
  match b with
  | [Byte.xff; w; h] => Some (PDFImage.mk (byteQ w) (byteQ h))
  | _ => None
  end.

Definition sampleEmbedPng (b : Bytes) : option PDFImage.t :=
  match b with
  | [Byte.x89; w; h] => Some (PDFImage.mk (byteQ w) (byteQ h))
  | _ => None
  end.

Definition samplePageSize : Size.t := Size.mk 612 792.

Definition samplePreviewURL (f : File.t) : string := "blob:" ++ File.name f.

Definition sampleObjectURL (b : Bytes) : string :=
  "blob:merged-" ++ concat EmptyString (map (fun _ => "p") b).

Definition sampleSave (doc : list (OutputPage nat)) : option Bytes :=
  Some (map (fun _ => Byte.x50) doc).

Definition sampleRandom (k : nat) : string :=
  String (Ascii.ascii_of_nat (97 + k)) EmptyString.

Definition pdfB : File.t :=
  File.mk "b.pdf" "application/pdf" 50 [Byte.x25; Byte.x01; Byte.x02].
Definition pdfX : File.t :=
  File.mk "x.pdf" "application/pdf" 10 [Byte.x00; Byte.x01].
Definition imageA : File.t :=
  File.mk "a.png" "image/png" 100 [Byte.x89; Byte.x64; Byte.x32].
Definition imageC : File.t :=
  File.mk "c.gif" "image/gif" 75 [Byte.x47; Byte.x49; Byte.x46].
Definition notes : File.t :=
  File.mk "notes.txt" "text/plain" 60 [Byte.x68; Byte.x69].

Section App.
(** The content of one page of a parsed source PDF. *)
Variable PDFPage : Type.
(** [PDFDocument.load]: the pages of the document, or a throw. *)
Variable load : Bytes -> option (list PDFPage).
(** [embedJpg] and [embedPng]: the decoded image, or a throw. *)
Variable embedJpg : Bytes -> option PDFImage.t.
Variable embedPng : Bytes -> option PDFImage.t.
(** [page.getSize()] of a page made by [addPage()] with no argument. *)
Variable defaultPageSize : Size.t.
(** [URL.createObjectURL] on a [File] (preview) and on the merged blob. *)
Variable createPreviewURL : File.t -> string.
Variable createObjectURL : Bytes -> string.

Definition PDFDocument := list (OutputPage PDFPage).

(** [PDFDocument.save]: the serialized bytes, or a throw. *)
Variable save : PDFDocument -> option Bytes.

(** *** addFiles *)

Definition isPdf (f : File.t) : bool := File.type f =? "application/pdf".
Definition isImage (f : File.t) : bool := prefix "image/" (File.type f).
Definition isValidFile (f : File.t) : bool := isPdf f || isImage f.

(** The object built by the [map] callback; [random k] is the string
    [Math.random().toString(36).substring(7)] of the [k]-th call. *)
Definition withMetadata (random : nat -> string) (k : nat) (f : File.t)
  : FileWithMetadata.t :=
  FileWithMetadata.mk
    (random k)
    f
    (if isPdf f then pdf else image)
    (File.lastModified f)
    (if isImage f then Some (createPreviewURL f) else None).

Definition validFiles (newFiles : list File.t) (random : nat -> string)
  : list FileWithMetadata.t :=
  mapi_from (withMetadata random) 0 (filter isValidFile newFiles).

Definition addFiles (st : AppState) (newFiles : list File.t)
           (random : nat -> string) : AppState :=
  let valid := validFiles newFiles random in
  let err := if (List.length valid <? List.length newFiles)%nat
             then Some skippedMessage else None in
  mkState (sortBy compareTimestamp (files st ++ valid))
          (isMerging st)
          None
          err.

(** *** removeFile and the "Clear All" handler *)

Definition removeFile (st : AppState) (id : string) : AppState :=
  mkState (filter (fun f => negb (FileWithMetadata.id f =? id)) (files st))
          (isMerging st)
          None
          (error st).

(** [onClick={() => setFiles([])}] *)
Definition clearAll (st : AppState) : AppState :=
  mkState [] (isMerging st) (mergedPdfUrl st) (error st).

(** *** mergeFiles *)

Definition addPage (mergedPdf : PDFDocument) (page : OutputPage PDFPage)
  : PDFDocument := mergedPdf ++ [page].

(** [addPage()], [getSize()], [scaleToFit] and [drawImage] for one image. *)
Definition drawImagePage (image : PDFImage.t) : OutputPage PDFPage :=
  let width := Size.width defaultPageSize in
  let height := Size.height defaultPageSize in
  let dims := scaleToFit image (width - 40)%Q (height - 40)%Q in
  ImagePage defaultPageSize image
    (DrawOptions.mk ((width - Size.width dims) / 2)%Q
                    ((height - Size.height dims) / 2)%Q
                    (Size.width dims)
                    (Size.height dims)).

Definition isJpegType (t : string) : bool :=
  (t =? "image/jpeg") || (t =? "image/jpg").
Definition isPngType (t : string) : bool := t =? "image/png".

(** The [for (const item of files)] loop, [mergedPdf] being the document
    it mutates. *)
Fixpoint mergeLoop (items : list FileWithMetadata.t) (mergedPdf : PDFDocument)
  : option PDFDocument :=
  match items with
  | [] => Some mergedPdf
  | item :: rest =>
    let fileBytes := File.arrayBuffer (FileWithMetadata.file item) in
    match FileWithMetadata.type item with
    | pdf =>
      pdfDoc <- load fileBytes ;;
      copiedPages <- copyPages pdfDoc (getPageIndices pdfDoc) ;;
      mergeLoop rest (fold_left addPage (map CopiedPage copiedPages) mergedPdf)
    | image =>
      let t := File.type (FileWithMetadata.file item) in
      if isJpegType t then
        image <- embedJpg fileBytes ;;
        mergeLoop rest (addPage mergedPdf (drawImagePage image))
      else if isPngType t then
        image <- embedPng fileBytes ;;
        mergeLoop rest (addPage mergedPdf (drawImagePage image))
      else
        mergeLoop rest mergedPdf
    end
  end.

(** The body of the [try] block: the URL of the merged blob, or a throw. *)
Definition mergeTry (items : list FileWithMetadata.t) : option string :=
  mergedPdf <- mergeLoop items [] ;;
  pdfBytes <- save mergedPdf ;;
  Some (createObjectURL pdfBytes).

Definition mergeFiles (st : AppState) : AppState :=
  if (List.length (files st) =? 0)%nat then st
  else
    match mergeTry (files st) with
    | Some url => mkState (files st) false (Some url) None
    | None => mkState (files st) false (mergedPdfUrl st) (Some mergeErrorMessage)
    end.

(** *** Sessions: the handlers a user can trigger, in sequence *)

Inductive Action :=
| AddFiles (newFiles : list File.t) (random : nat -> string)
| RemoveFile (id : string)
| ClearAll
| MergeFiles.

Definition step (st : AppState) (a : Action) : AppState :=
  match a with
  | AddFiles newFiles random => addFiles st newFiles random
  | RemoveFile id => removeFile st id
  | ClearAll => clearAll st
  | MergeFiles => mergeFiles st
  end.

Definition run (actions : list Action) : AppState :=
  fold_left step actions initialState.

(** The supported items a session has inserted and not removed, in the
    order of their insertion. *)
Definition inserted_step (h : list FileWithMetadata.t) (a : Action)
  : list FileWithMetadata.t :=
  match a with
  | AddFiles newFiles random => h ++ validFiles newFiles random
  | RemoveFile id => filter (fun f => negb (FileWithMetadata.id f =? id)) h
  | ClearAll => []
  | MergeFiles => h
  end.

Definition inserted (actions : list Action) : list FileWithMetadata.t :=
  fold_left inserted_step actions [].

(** *** Vocabulary of the statements *)

(** The pages one iteration of the loop of [mergeFiles] appends for [item],
    or a throw. *)
Definition itemPages (item : FileWithMetadata.t) : option PDFDocument :=
  let fileBytes := File.arrayBuffer (FileWithMetadata.file item) in
  match FileWithMetadata.type item with
  | pdf => pdfDoc <- load fileBytes ;; Some (map CopiedPage pdfDoc)
  | image =>
    let t := File.type (FileWithMetadata.file item) in
    if isJpegType t then
      image <- embedJpg fileBytes ;; Some [drawImagePage image]
    else if isPngType t then
      image <- embedPng fileBytes ;; Some [drawImagePage image]
    else Some []
  end.

Definition isNone {A : Type} (o : option A) : bool :=
  match o with Some _ => false | None => true end.

(** A supported item whose bytes are malformed: a PDF that does not parse,
    a JPEG or a PNG that does not decode. *)
Definition isMalformed (item : FileWithMetadata.t) : bool :=
  let fileBytes := File.arrayBuffer (FileWithMetadata.file item) in
  let t := File.type (FileWithMetadata.file item) in
  match FileWithMetadata.type item with
  | pdf => isNone (load fileBytes)
  | image =>
    (isJpegType t && isNone (embedJpg fileBytes))
    || (isPngType t && isNone (embedPng fileBytes))
  end.

(** An item classified as an image whose subtype is neither JPEG nor PNG. *)
Definition isUnsupportedImage (item : FileWithMetadata.t) : bool :=
  let t := File.type (FileWithMetadata.file item) in
  match FileWithMetadata.type item with
  | pdf => false
  | image => negb (isJpegType t) && negb (isPngType t)
  end.




(** What the [map] callback of [addFiles] establishes of an item: its file
    is a PDF or an image, and its kind, time stamp and preview are those of
    the file. *)
Definition wellFormedItem (item : FileWithMetadata.t) : Prop :=
  let f := FileWithMetadata.file item in
  isValidFile f = true /\
  FileWithMetadata.type item = (if isPdf f then pdf else image) /\
  FileWithMetadata.timestamp item = File.lastModified f /\
  FileWithMetadata.preview item =
    (if isImage f then Some (createPreviewURL f) else None).

(** The URL that [removeFile] hands to [URL.revokeObjectURL]: the preview,
    when it is truthy, of the first item that [find] meets with the id. *)
Definition revokedPreview (st : AppState) (id : string) : option string :=
  match find (fun f => FileWithMetadata.id f =? id) (files st) with
  | Some removed =>
    match FileWithMetadata.preview removed with
    | Some url => if url =? EmptyString then None else Some url
    | None => None
    end
  | None => None
  end.


(** The states a session can reach. *)
Definition reachable (st : AppState) : Prop := exists actions, st = run actions.

(** ** The sort of [addFiles] *)

Abbreviation sortFiles := (sortBy compareTimestamp).
Abbreviation removeId id :=
  (filter (fun f => negb (FileWithMetadata.id f =? id))).

Lemma insertBy_perm (a : FileWithMetadata.t) l :
  Permutation (insertBy compareTimestamp a l) (a :: l).
Proof.
  induction l as [|b l IH]; simpl; [reflexivity|].
  destruct (compareTimestamp a b <=? 0)%Z; [reflexivity|].
  rewrite IH. apply perm_swap.
Qed.

Lemma sortFiles_perm l : Permutation (sortFiles l) l.
Proof.
  induction l as [|a l IH]; simpl; [constructor|].
  rewrite insertBy_perm. now constructor.
Qed.

Lemma insertBy_sorted a l :
  StronglySorted timestampLe l ->
  StronglySorted timestampLe (insertBy compareTimestamp a l).
Proof.
  induction 1 as [|b l Hs IH Hb]; simpl.
  - repeat constructor.
  - destruct (compareTimestamp a b <=? 0)%Z eqn:E.
    + apply Z.leb_le in E. unfold compareTimestamp in E.
      constructor; [now constructor|].
      constructor; [unfold timestampLe; lia|].
      eapply Forall_impl; [|exact Hb].
      unfold timestampLe. intros c Hc. lia.
    + apply Z.leb_gt in E. unfold compareTimestamp in E.
      constructor; [exact IH|].
      rewrite (Forall_forall). intros c Hc.
      apply (Permutation_in _ (insertBy_perm a l)) in Hc.
      destruct Hc as [<-|Hc]; [unfold timestampLe; lia|].
      rewrite Forall_forall in Hb. now apply Hb.
Qed.

Lemma sortFiles_sorted l : StronglySorted timestampLe (sortFiles l).
Proof.
  induction l as [|a l IH]; simpl; [constructor|].
  now apply insertBy_sorted.
Qed.

(** Insertion walks only over items that are strictly earlier, so the items
    of any one time stamp keep their order. *)
Lemma filter_insertBy t a l :
  filter (hasTimestamp t) (insertBy compareTimestamp a l) =
  filter (hasTimestamp t) (a :: l).
Proof.
  induction l as [|b l IH]; [reflexivity|].
  cbn [insertBy].
  destruct (compareTimestamp a b <=? 0)%Z eqn:E; [reflexivity|].
  apply Z.leb_gt in E. unfold compareTimestamp in E.
  cbn [filter] in *. rewrite IH.
  unfold hasTimestamp.
  destruct (FileWithMetadata.timestamp a =? t)%Z eqn:Ea;
    destruct (FileWithMetadata.timestamp b =? t)%Z eqn:Eb; try reflexivity.
  apply Z.eqb_eq in Ea, Eb. lia.
Qed.

Lemma sortFiles_stable t l :
  filter (hasTimestamp t) (sortFiles l) = filter (hasTimestamp t) l.
Proof.
  induction l as [|a l IH]; [reflexivity|].
  cbn [sortBy fold_right]. rewrite filter_insertBy.
  cbn [filter]. fold (sortFiles l). now rewrite IH.
Qed.

Lemma filter_sorted (p : FileWithMetadata.t -> bool) l :
  StronglySorted timestampLe l -> StronglySorted timestampLe (filter p l).
Proof.
  induction 1 as [|b l Hs IH Hb]; simpl; [constructor|].
  destruct (p b); [|exact IH].
  constructor; [exact IH|].
  rewrite Forall_forall in *. intros c Hc.
  apply filter_In in Hc. now apply Hb.
Qed.

(** A list has one stable sorted arrangement: the result of [sort] does not
    depend on the sorting algorithm. *)
Lemma stable_sort_unique l1 : forall l2,
  StronglySorted timestampLe l1 -> StronglySorted timestampLe l2 ->
  (forall t, filter (hasTimestamp t) l1 = filter (hasTimestamp t) l2) ->
  l1 = l2.
Proof.
  induction l1 as [|a l1 IH]; intros l2 H1 H2 Hf.
  - destruct l2 as [|b l2]; [reflexivity|].
    specialize (Hf (FileWithMetadata.timestamp b)). cbn in Hf.
    unfold hasTimestamp in Hf. rewrite Z.eqb_refl in Hf. discriminate.
  - destruct l2 as [|b l2].
    + specialize (Hf (FileWithMetadata.timestamp a)). cbn in Hf.
      unfold hasTimestamp in Hf. rewrite Z.eqb_refl in Hf. discriminate.
    + inversion H1 as [|? ? H1s H1a]; subst.
      inversion H2 as [|? ? H2s H2b]; subst.
      rewrite Forall_forall in H1a, H2b.
      assert (Hab : FileWithMetadata.timestamp a = FileWithMetadata.timestamp b).
      { assert (Ha : In a (b :: l2)).
        { pose proof (Hf (FileWithMetadata.timestamp a)) as E.
          assert (I : In a (filter (hasTimestamp (FileWithMetadata.timestamp a))
                                   (a :: l1))).
          { apply filter_In. split; [now left|]. apply Z.eqb_refl. }
          rewrite E in I. now apply filter_In in I. }
        assert (Hb : In b (a :: l1)).
        { pose proof (Hf (FileWithMetadata.timestamp b)) as E.
          assert (I : In b (filter (hasTimestamp (FileWithMetadata.timestamp b))
                                   (b :: l2))).
          { apply filter_In. split; [now left|]. apply Z.eqb_refl. }
          rewrite <- E in I. now apply filter_In in I. }
        destruct Ha as [->|Ha]; [reflexivity|].
        destruct Hb as [->|Hb]; [reflexivity|].
        apply H2b in Ha. apply H1a in Hb. unfold timestampLe in *. lia. }
      assert (a = b).
      { specialize (Hf (FileWithMetadata.timestamp a)). cbn in Hf.
        unfold hasTimestamp in Hf. rewrite <- Hab, Z.eqb_refl in Hf.
        now inversion Hf. }
      subst b. f_equal. apply IH; [assumption|assumption|].
      intros t. specialize (Hf t). cbn in Hf.
      destruct (hasTimestamp t a); [now inversion Hf|exact Hf].
Qed.

Lemma sortFiles_app_sorted h v :
  sortFiles (sortFiles h ++ v) = sortFiles (h ++ v).
Proof.
  apply stable_sort_unique; try apply sortFiles_sorted.
  intros t. rewrite !sortFiles_stable, !filter_app.
  now rewrite sortFiles_stable.
Qed.

Lemma filter_filter_comm {A} (p q : A -> bool) l :
  filter p (filter q l) = filter q (filter p l).
Proof.
  induction l as [|a l IH]; [reflexivity|]. simpl.
  destruct (p a) eqn:Ep, (q a) eqn:Eq; simpl; rewrite ?Ep, ?Eq, IH; reflexivity.
Qed.

Lemma filter_sortFiles p l :
  filter p (sortFiles l) = sortFiles (filter p l).
Proof.
  apply stable_sort_unique.
  - apply filter_sorted, sortFiles_sorted.
  - apply sortFiles_sorted.
  - intros t. rewrite filter_filter_comm, !sortFiles_stable.
    apply filter_filter_comm.
Qed.

(** ** The loop of [mergeFiles] *)

Lemma mapM_nth_error_seq {A} (pre l : list A) :
  mapM (fun i => nth_error (pre ++ l) i) (seq (List.length pre) (List.length l))
  = Some l.
Proof.
  revert pre. induction l as [|a l IH]; intros pre; [reflexivity|].
  cbn [List.length seq mapM].
  rewrite nth_error_app2, Nat.sub_diag by lia. cbn [nth_error bind].
  specialize (IH (pre ++ [a])).
  rewrite <- app_assoc, length_app, Nat.add_comm in IH. cbn in IH.
  now rewrite IH.
Qed.

(** Copying the pages at all indices of a document yields its pages, in
    their order. *)
Lemma copyPages_getPageIndices {A} (pdfDoc : list A) :
  copyPages pdfDoc (getPageIndices pdfDoc) = Some pdfDoc.
Proof. exact (mapM_nth_error_seq [] pdfDoc). Qed.

Lemma fold_left_addPage pages : forall mergedPdf,
  fold_left addPage pages mergedPdf = mergedPdf ++ pages.
Proof.
  induction pages as [|pg pages IH]; intros mergedPdf; cbn.
  - now rewrite app_nil_r.
  - rewrite IH. unfold addPage. now rewrite <- app_assoc.
Qed.

(** The loop appends, item after item, the pages of [itemPages]. *)
Lemma mergeLoop_groups items : forall mergedPdf,
  mergeLoop items mergedPdf =
  (groups <- mapM itemPages items ;; Some (mergedPdf ++ List.concat groups)).
Proof.
  induction items as [|item rest IH]; intros mergedPdf.
  - cbn. now rewrite app_nil_r.
  - cbn [mergeLoop mapM]. unfold itemPages at 1.
    destruct (FileWithMetadata.type item).
    + destruct (load _) as [pdfDoc|]; [|reflexivity]. cbn [bind].
      rewrite copyPages_getPageIndices. cbn [bind].
      rewrite IH, fold_left_addPage.
      destruct (mapM itemPages rest) as [groups|]; [|reflexivity].
      cbn. now rewrite app_assoc.
    + destruct (isJpegType _); [|destruct (isPngType _)].
      * destruct (embedJpg _) as [im|]; [|reflexivity]. cbn [bind].
        rewrite IH. unfold addPage.
        destruct (mapM itemPages rest) as [groups|]; [|reflexivity].
        cbn. now rewrite <- app_assoc.
      * destruct (embedPng _) as [im|]; [|reflexivity]. cbn [bind].
        rewrite IH. unfold addPage.
        destruct (mapM itemPages rest) as [groups|]; [|reflexivity].
        cbn. now rewrite <- app_assoc.
      * cbn [bind]. rewrite IH.
        destruct (mapM itemPages rest) as [groups|]; reflexivity.
Qed.

Lemma mapM_Forall2 {A B} (f : A -> option B) l : forall gs,
  mapM f l = Some gs <-> Forall2 (fun a g => f a = Some g) l gs.
Proof.
  induction l as [|a l IH]; intros gs; cbn.
  - split; [intros [= <-]; constructor|inversion 1; reflexivity].
  - split.
    + destruct (f a) as [b|] eqn:E; [|discriminate]. cbn.
      destruct (mapM f l) as [bs|] eqn:E'; [|discriminate]. cbn.
      intros [= <-]. constructor; [exact E|now apply IH].
    + inversion 1 as [|? g ? gs' Hg Hgs]; subst. rewrite Hg. cbn.
      apply IH in Hgs. now rewrite Hgs.
Qed.

Lemma mapM_None {A B} (f : A -> option B) l a :
  In a l -> f a = None -> mapM f l = None.
Proof.
  induction l as [|b l IH]; [contradiction|].
  intros [->|Hin] Ha; cbn.
  - now rewrite Ha.
  - destruct (f b); [|reflexivity]. cbn. now rewrite IH.
Qed.

Lemma isMalformed_itemPages item :
  isMalformed item = true -> itemPages item = None.
Proof.
  unfold isMalformed, itemPages, isJpegType, isPngType.
  destruct (FileWithMetadata.type item).
  - destruct (load _); [discriminate|reflexivity].
  - destruct (File.type (FileWithMetadata.file item) =? "image/jpeg") eqn:E1;
      [|destruct (File.type (FileWithMetadata.file item) =? "image/jpg") eqn:E2];
      cbn.
    + destruct (embedJpg _); cbn; [|reflexivity].
      apply String.eqb_eq in E1. rewrite E1. discriminate.
    + destruct (embedJpg _); cbn; [|reflexivity].
      apply String.eqb_eq in E2. rewrite E2. discriminate.
    + destruct (File.type (FileWithMetadata.file item) =? "image/png"); cbn;
        [|discriminate].
      destruct (embedPng _); [discriminate|reflexivity].
Qed.

Lemma mergeLoop_malformed items item mergedPdf :
  In item items -> isMalformed item = true -> mergeLoop items mergedPdf = None.
Proof.
  intros Hin Hm. rewrite mergeLoop_groups.
  now rewrite (mapM_None _ _ _ Hin (isMalformed_itemPages _ Hm)).
Qed.

Lemma mergeTry_loop items url :
  mergeTry items = Some url ->
  exists mergedPdf pdfBytes,
    mergeLoop items [] = Some mergedPdf /\ save mergedPdf = Some pdfBytes /\
    url = createObjectURL pdfBytes.
Proof.
  unfold mergeTry.
  destruct (mergeLoop items []) as [mergedPdf|] eqn:El; [|discriminate].
  cbn. destruct (save mergedPdf) as [pdfBytes|] eqn:Es; [|discriminate]. cbn.
  intros [= <-]. now exists mergedPdf, pdfBytes.
Qed.

Lemma mergeLoop_skip before : forall item after mergedPdf,
  isUnsupportedImage item = true ->
  mergeLoop (before ++ item :: after) mergedPdf =
  mergeLoop (before ++ after) mergedPdf.
Proof.
  induction before as [|a before IH]; intros item after mergedPdf Hu.
  - cbn [app mergeLoop]. unfold isUnsupportedImage in Hu.
    destruct (FileWithMetadata.type item); [discriminate|].
    apply andb_true_iff in Hu as [Hj Hp].
    apply negb_true_iff in Hj, Hp. now rewrite Hj, Hp.
  - cbn [app mergeLoop].
    destruct (FileWithMetadata.type a).
    + destruct (load _); [|reflexivity]. cbn [bind].
      destruct (copyPages _ _); [|reflexivity]. cbn [bind]. now apply IH.
    + destruct (isJpegType _); [|destruct (isPngType _)].
      * destruct (embedJpg _); [|reflexivity]. cbn [bind]. now apply IH.
      * destruct (embedPng _); [|reflexivity]. cbn [bind]. now apply IH.
      * now apply IH.
Qed.





(** ** Sessions *)

Lemma run_snoc actions a : run (actions ++ [a]) = step (run actions) a.
Proof. unfold run. now rewrite fold_left_app. Qed.

Lemma inserted_snoc actions a :
  inserted (actions ++ [a]) = inserted_step (inserted actions) a.
Proof. unfold inserted. now rewrite fold_left_app. Qed.

Lemma mergeFiles_files st : files (mergeFiles st) = files st.
Proof.
  unfold mergeFiles. destruct (List.length (files st) =? 0)%nat; [reflexivity|].
  destruct (mergeTry (files st)); reflexivity.
Qed.

(** The list on display is the stable sort of what was inserted. *)
Lemma run_files actions : files (run actions) = sortFiles (inserted actions).
Proof.
  induction actions as [|a actions IH] using rev_ind; [reflexivity|].
  rewrite run_snoc, inserted_snoc. destruct a; cbn [step inserted_step].
  - cbn [addFiles files]. rewrite IH. apply sortFiles_app_sorted.
  - cbn [removeFile files]. rewrite IH. apply filter_sortFiles.
  - reflexivity.
  - now rewrite mergeFiles_files.
Qed.

(** A merged output on display was made from the list on display, unless
    that list is empty. *)
Lemma run_output actions url :
  mergedPdfUrl (run actions) = Some url ->
  files (run actions) = [] \/ mergeTry (files (run actions)) = Some url.
Proof.
  revert url. induction actions as [|a actions IH] using rev_ind; intros url.
  - discriminate.
  - rewrite run_snoc. destruct a; cbn [step].
    + discriminate.
    + discriminate.
    + now left.
    + unfold mergeFiles.
      destruct (List.length (files (run actions)) =? 0)%nat eqn:En;
        [apply IH|].
      destruct (mergeTry (files (run actions))) as [u|] eqn:Et; cbn.
      * intros [= <-]. now right.
      * intros Hu. destruct (IH _ Hu) as [H0|H1].
        -- rewrite H0 in En. discriminate.
        -- discriminate.
Qed.

(** ** The claims *)

(** C1. All-or-nothing: when the file list holds a supported item whose
    bytes are malformed (a PDF that does not parse, a JPEG or PNG that does
    not decode), the loop and the whole [try] body throw, [mergeFiles] sets
    the one top-level error message and publishes no output: the merged
    output keeps its former value, which in every state a session can reach
    is [null]. *)
Theorem merge_malformed_fails (st : AppState) (item : FileWithMetadata.t) :
  In item (files st) ->
  isMalformed item = true ->
  mergeLoop (files st) [] = None /\
  mergeTry (files st) = None /\
  error (mergeFiles st) = Some mergeErrorMessage /\
  mergedPdfUrl (mergeFiles st) = mergedPdfUrl st /\
  (reachable st -> mergedPdfUrl (mergeFiles st) = None).
Proof.
  intros Hin Hm.
  assert (HL : mergeLoop (files st) [] = None)
    by (eapply mergeLoop_malformed; eassumption).
  assert (HT : mergeTry (files st) = None) by (unfold mergeTry; now rewrite HL).
  assert (HN : (List.length (files st) =? 0)%nat = false).
  { destruct (files st); [contradiction|reflexivity]. }
  unfold mergeFiles. rewrite HN, HT. cbn.
  repeat split; try assumption.
  intros [actions ->].
  destruct (mergedPdfUrl (run actions)) as [url|] eqn:Eu; [|reflexivity].
  destruct (run_output _ _ Eu) as [H0|H1].
  - rewrite H0 in Hin. contradiction.
  - rewrite HT in H1. discriminate.
Qed.

Lemma itemPages_pdf item g :
  itemPages item = Some g ->
  FileWithMetadata.type item = pdf ->
  exists pdfDoc,
    load (File.arrayBuffer (FileWithMetadata.file item)) = Some pdfDoc /\
    g = map CopiedPage pdfDoc.
Proof.
  unfold itemPages. intros Hg Ht. rewrite Ht in Hg.
  destruct (load _) as [pdfDoc|]; [|discriminate].
  exists pdfDoc. cbn in Hg. now inversion Hg.
Qed.

(** C2. Chronological order: in every session, when the loop of
    [mergeFiles] succeeds, the file list it walks is sorted by time stamp in
    non-decreasing order, it holds exactly the inserted items, the items of
    any one time stamp stand in their order of insertion (stability), and the
    output is the concatenation, in the order of that list, of one group of
    pages per item; the group of a source PDF is the list of its pages in
    their original order. *)
Theorem merge_output_chronological (actions : list Action) (doc : PDFDocument) :
  mergeLoop (files (run actions)) [] = Some doc ->
  StronglySorted timestampLe (files (run actions)) /\
  Permutation (files (run actions)) (inserted actions) /\
  (forall t, filter (hasTimestamp t) (files (run actions)) =
             filter (hasTimestamp t) (inserted actions)) /\
  exists groups,
    doc = List.concat groups /\
    Forall2 (fun item g =>
               itemPages item = Some g /\
               (FileWithMetadata.type item = pdf ->
                exists pdfDoc,
                  load (File.arrayBuffer (FileWithMetadata.file item))
                  = Some pdfDoc /\
                  g = map CopiedPage pdfDoc))
            (files (run actions)) groups.
Proof.
  intros Hdoc. rewrite run_files in *.
  split; [apply sortFiles_sorted|].
  split; [apply sortFiles_perm|].
  split; [intros t; apply sortFiles_stable|].
  rewrite mergeLoop_groups in Hdoc.
  destruct (mapM itemPages (sortFiles (inserted actions))) as [groups|] eqn:Eg;
    [|discriminate].
  cbn in Hdoc. injection Hdoc as <-. exists groups. split; [reflexivity|].
  apply mapM_Forall2 in Eg.
  eapply Forall2_impl; [|exact Eg].
  intros item g Hg. split; [exact Hg|]. now apply itemPages_pdf.
Qed.


(** C4, as the code has it. [mergeFiles] on an empty file list returns at
    once: the state is left as it was, and no failure is reported. *)
Theorem mergeFiles_empty_noop (st : AppState) :
  files st = [] -> mergeFiles st = st.
Proof.
  intros H0. unfold mergeFiles. now rewrite H0.
Qed.

(** C5. An item classified as an image whose subtype is neither JPEG nor
    PNG is skipped, not fatal: it contributes no page, and the loop, the
    [try] body and the resulting output and error are those of the list
    without it, so the merge completes whenever the merge of the remaining
    items does. *)
Theorem merge_skips_unsupported_image
        (st : AppState) (before after : list FileWithMetadata.t)
        (item : FileWithMetadata.t) :
  files st = before ++ item :: after ->
  isUnsupportedImage item = true ->
  itemPages item = Some [] /\
  mergeLoop (files st) [] = mergeLoop (before ++ after) [] /\
  mergeTry (files st) = mergeTry (before ++ after) /\
  mergedPdfUrl (mergeFiles st) =
    match mergeTry (before ++ after) with
    | Some url => Some url
    | None => mergedPdfUrl st
    end /\
  error (mergeFiles st) =
    match mergeTry (before ++ after) with
    | Some _ => None
    | None => Some mergeErrorMessage
    end.
Proof.
  intros Hf Hu.
  assert (HL : mergeLoop (files st) [] = mergeLoop (before ++ after) [])
    by (rewrite Hf; now apply mergeLoop_skip).
  assert (HT : mergeTry (files st) = mergeTry (before ++ after))
    by (unfold mergeTry; now rewrite HL).
  split; [|split; [exact HL|split; [exact HT|]]].
  - unfold isUnsupportedImage in Hu. unfold itemPages.
    destruct (FileWithMetadata.type item); [discriminate|].
    apply andb_true_iff in Hu as [Hj Hp].
    apply negb_true_iff in Hj, Hp. now rewrite Hj, Hp.
  - unfold mergeFiles. rewrite HT, Hf.
    replace (List.length (before ++ item :: after) =? 0)%nat with false
      by (destruct before; reflexivity).
    destruct (mergeTry (before ++ after)); split; reflexivity.
Qed.

(** C9. Sortedness is an invariant of the file list: after every handler of
    every session, and so after every [addFiles] and every [removeFile], the
    list is sorted by time stamp in non-decreasing order. *)
Theorem files_sorted_invariant (actions : list Action) :
  StronglySorted timestampLe (files (run actions)) /\
  (forall newFiles random,
      StronglySorted timestampLe
        (files (addFiles (run actions) newFiles random))) /\
  (forall id,
      StronglySorted timestampLe (files (removeFile (run actions) id))).
Proof.
  assert (H : forall acts, StronglySorted timestampLe (files (run acts))).
  { induction acts as [|a acts IH] using rev_ind; [constructor|].
    rewrite run_snoc. destruct a; cbn [step].
    - apply sortFiles_sorted.
    - apply filter_sorted, IH.
    - constructor.
    - now rewrite mergeFiles_files. }
  split; [apply H|split].
  - intros newFiles random. apply sortFiles_sorted.
  - intros id. apply filter_sorted, H.
Qed.

(** ** Image pages *)

Lemma Forall2_In_r {A B} (R : A -> B -> Prop) l gs g :
  Forall2 R l gs -> In g gs -> exists a, In a l /\ R a g.
Proof.
  induction 1 as [|a g' l gs Hr _ IH]; [contradiction|].
  intros [->|Hin].
  - exists a. split; [now left|exact Hr].
  - destruct (IH Hin) as (a' & Ha & Hr'). exists a'. split; [now right|exact Hr'].
Qed.

(** Every image page of the output was made by [drawImagePage] from the
    image decoded from one item of the list. *)
Lemma image_page_origin items doc size image options :
  mergeLoop items [] = Some doc ->
  In (ImagePage size image options) doc ->
  ImagePage size image options = drawImagePage image /\
  exists item,
    In item items /\ itemPages item = Some [drawImagePage image].
Proof.
  intros Hdoc Hin. rewrite mergeLoop_groups in Hdoc.
  destruct (mapM itemPages items) as [groups|] eqn:Eg; [|discriminate].
  cbn in Hdoc. injection Hdoc as <-.
  apply in_concat in Hin as (g & Hg & Hin).
  apply mapM_Forall2 in Eg.
  destruct (Forall2_In_r _ _ _ _ Eg Hg) as (item & Hitem & Hpages).
  assert (Hone : forall im, g = [drawImagePage im] ->
            ImagePage size image options = drawImagePage image /\
            g = [drawImagePage image]).
  { intros im ->. destruct Hin as [Hin|[]].
    assert (im = image) by (unfold drawImagePage in Hin; now injection Hin).
    subst im. split; [now symmetry|reflexivity]. }
  assert (Hcase : (exists im, g = [drawImagePage im]) ->
            ImagePage size image options = drawImagePage image /\
            exists item,
              In item items /\ itemPages item = Some [drawImagePage image]).
  { intros [im Him]. destruct (Hone im Him) as [Heq Hg'].
    split; [exact Heq|]. exists item. split; [exact Hitem|].
    now rewrite Hpages, Hg'. }
  unfold itemPages in Hpages.
  destruct (FileWithMetadata.type item).
  - destruct (load _) as [pdfDoc|]; [|discriminate].
    cbn in Hpages. injection Hpages as <-.
    apply in_map_iff in Hin as (pg & Hpg & _). discriminate.
  - destruct (isJpegType _); [|destruct (isPngType _)].
    + destruct (embedJpg _) as [im|]; [|discriminate].
      cbn in Hpages. injection Hpages as <-. apply Hcase. now exists im.
    + destruct (embedPng _) as [im|]; [|discriminate].
      cbn in Hpages. injection Hpages as <-. apply Hcase. now exists im.
    + injection Hpages as <-. contradiction.
Qed.

(** Conversely, an item whose image decodes has its page in the output. *)
Lemma image_item_page items doc item image :
  mergeLoop items [] = Some doc ->
  In item items ->
  itemPages item = Some [drawImagePage image] ->
  In (drawImagePage image) doc.
Proof.
  intros Hdoc Hin Hpages. rewrite mergeLoop_groups in Hdoc.
  destruct (mapM itemPages items) as [groups|] eqn:Eg; [|discriminate].
  cbn in Hdoc. injection Hdoc as <-.
  apply in_concat. exists [drawImagePage image]. split; [|now left].
  revert groups Eg.
  induction items as [|a items IH]; intros groups Eg; [contradiction|].
  cbn in Eg. destruct (itemPages a) as [g|] eqn:Ea; [|discriminate].
  destruct (mapM itemPages items) as [gs|]; [|discriminate].
  cbn in Eg. injection Eg as <-.
  destruct Hin as [->|Hin].
  - left. congruence.
  - right. now apply IH.
Qed.

Lemma Qmin_pos (a b : Q) : (0 < a)%Q -> (0 < b)%Q -> (0 < Qmin a b)%Q.
Proof.
  intros Ha Hb.
  destruct (Q.min_spec a b) as [[_ E]|[_ E]]; now rewrite E.
Qed.

Lemma Qdiv_pos (a b : Q) : (0 < a)%Q -> (0 < b)%Q -> (0 < a / b)%Q.
Proof.
  intros Ha Hb. apply Qlt_shift_div_l; [exact Hb|]. now rewrite Qmult_0_l.
Qed.

(** C6. Scale-to-fit: every image page of the output shows an image of
    native size W x H (both positive) on a page of size PW x PH (both above
    40) with the placed size (s*W, s*H), where
    s = min((PW-40)/W, (PH-40)/H): one positive scale for both dimensions,
    fitting the page less 20 units on each side, so the placed width over
    the placed height is W over H. *)
Theorem image_scaled_to_fit
        (items : list FileWithMetadata.t) (doc : PDFDocument)
        (size : Size.t) (image : PDFImage.t) (options : DrawOptions.t) :
  mergeLoop items [] = Some doc ->
  In (ImagePage size image options) doc ->
  (0 < PDFImage.width image)%Q ->
  (0 < PDFImage.height image)%Q ->
  (40 < Size.width size)%Q ->
  (40 < Size.height size)%Q ->
  let s := Qmin ((Size.width size - 40) / PDFImage.width image)
                ((Size.height size - 40) / PDFImage.height image) in
  size = defaultPageSize /\
  (DrawOptions.width options == s * PDFImage.width image)%Q /\
  (DrawOptions.height options == s * PDFImage.height image)%Q /\
  (0 < s)%Q /\
  (DrawOptions.width options / DrawOptions.height options
   == PDFImage.width image / PDFImage.height image)%Q.
Proof.
  intros Hdoc Hin HW HH HPW HPH s.
  destruct (image_page_origin _ _ _ _ _ Hdoc Hin) as [Heq _].
  unfold drawImagePage, scaleToFit in Heq.
  injection Heq as Hsize Hopt.
  assert (Hw : DrawOptions.width options =
               (PDFImage.width image * s)%Q) by (now subst).
  assert (Hh : DrawOptions.height options =
               (PDFImage.height image * s)%Q) by (now subst).
  assert (Hs : (0 < s)%Q).
  { apply Qmin_pos; apply Qdiv_pos; try assumption.
    - rewrite <- (Qplus_opp_r 40). apply Qplus_lt_l. exact HPW.
    - rewrite <- (Qplus_opp_r 40). apply Qplus_lt_l. exact HPH. }
  rewrite Hw, Hh.
  split; [exact Hsize|].
  split; [apply Qmult_comm|].
  split; [apply Qmult_comm|].
  split; [exact Hs|].
  assert (Hs0 : ~ (s == 0)%Q) by (intros E; rewrite E in Hs; discriminate).
  assert (HH0 : ~ (PDFImage.height image == 0)%Q)
    by (intros E; rewrite E in HH; discriminate).
  field. auto.
Qed.

(** C7. Centering: on every image page of the output, the image having a
    positive native size, the left margin of the placed image equals its
    right margin and its bottom margin equals its top margin (exactly, hence
    within one unit). *)
Theorem image_centered
        (items : list FileWithMetadata.t) (doc : PDFDocument)
        (size : Size.t) (image : PDFImage.t) (options : DrawOptions.t) :
  mergeLoop items [] = Some doc ->
  In (ImagePage size image options) doc ->
  (0 < PDFImage.width image)%Q ->
  (0 < PDFImage.height image)%Q ->
  let left := DrawOptions.x options in
  let right := (Size.width size
                - (DrawOptions.x options + DrawOptions.width options))%Q in
  let bottom := DrawOptions.y options in
  let top := (Size.height size
              - (DrawOptions.y options + DrawOptions.height options))%Q in
  (left == right)%Q /\ (bottom == top)%Q /\
  (Qabs (left - right) <= 1)%Q /\ (Qabs (bottom - top) <= 1)%Q.
Proof.
  intros Hdoc Hin _ _ left right bottom top.
  destruct (image_page_origin _ _ _ _ _ Hdoc Hin) as [Heq _].
  unfold drawImagePage in Heq. injection Heq as Hsize Hopt.
  assert (HL : (left == right)%Q).
  { unfold left, right. subst size options. cbn. field. }
  assert (HB : (bottom == top)%Q).
  { unfold bottom, top. subst size options. cbn. field. }
  split; [exact HL|]. split; [exact HB|].
  split.
  - setoid_replace (left - right)%Q with 0%Q by (rewrite HL; ring).
    discriminate.
  - setoid_replace (bottom - top)%Q with 0%Q by (rewrite HB; ring).
    discriminate.
Qed.

(** ** Skipped files and the merged output *)

Lemma mapi_from_length {A B} (f : nat -> A -> B) l : forall k,
  List.length (mapi_from f k l) = List.length l.
Proof.
  induction l as [|a l IH]; intros k; cbn; [reflexivity|]. now rewrite IH.
Qed.



Lemma addFiles_clears_output st newFiles random :
  mergedPdfUrl (addFiles st newFiles random) = None.
Proof. reflexivity. Qed.

Lemma removeFile_clears_output st id :
  mergedPdfUrl (removeFile st id) = None.
Proof. reflexivity. Qed.

(** The "Clear All" handler leaves the merged output in place. *)
Lemma clearAll_keeps_output st :
  files (clearAll st) = [] /\ mergedPdfUrl (clearAll st) = mergedPdfUrl st.
Proof. split; reflexivity. Qed.


(** ** Further properties of the handlers *)

Lemma sortFiles_sorted_id l :
  StronglySorted timestampLe l -> sortFiles l = l.
Proof.
  intros Hs. apply stable_sort_unique;
    [apply sortFiles_sorted|exact Hs|intros t; apply sortFiles_stable].
Qed.

Lemma mapi_from_app {A B} (f : nat -> A -> B) l1 : forall k l2,
  mapi_from f k (l1 ++ l2)
  = mapi_from f k l1 ++ mapi_from f (k + List.length l1) l2.
Proof.
  induction l1 as [|a l1 IH]; intros k l2; cbn.
  - now rewrite Nat.add_0_r.
  - rewrite IH. now rewrite Nat.add_succ_r.
Qed.

Lemma mapi_from_offset {A B} (f : nat -> A -> B) n l : forall k,
  mapi_from (fun i => f (i + n)%nat) k l = mapi_from f (k + n) l.
Proof.
  induction l as [|a l IH]; intros k; cbn; [reflexivity|].
  now rewrite IH.
Qed.

Lemma mapi_from_wellFormed random l : forall k,
  Forall (fun f => isValidFile f = true) l ->
  Forall wellFormedItem (mapi_from (withMetadata random) k l).
Proof.
  induction l as [|f l IH]; intros k Hl; cbn; [constructor|].
  inversion Hl as [|? ? Hf Hl']; subst.
  constructor; [|now apply IH].
  unfold wellFormedItem, withMetadata. cbn. now repeat split.
Qed.

Lemma validFiles_wellFormed newFiles random :
  Forall wellFormedItem (validFiles newFiles random).
Proof.
  apply mapi_from_wellFormed. apply Forall_forall.
  intros f Hf. now apply filter_In in Hf.
Qed.

Lemma Forall_perm {A} (P : A -> Prop) l1 l2 :
  Permutation l1 l2 -> Forall P l1 -> Forall P l2.
Proof.
  intros Hp Hf. rewrite Forall_forall in *. intros a Ha.
  apply Hf. apply (Permutation_in _ (Permutation_sym Hp) Ha).
Qed.

(** X1. Every item a session lists is well formed: its file is a PDF or an
    image, the item is a [pdf] exactly when the declared type is
    [application/pdf], its time stamp is the file's [lastModified], and it
    has a preview exactly when the declared type starts with [image/]. *)
Theorem listed_items_well_formed (actions : list Action) :
  Forall wellFormedItem (files (run actions)).
Proof.
  induction actions as [|a actions IH] using rev_ind; [constructor|].
  rewrite run_snoc. destruct a; cbn [step].
  - cbn [addFiles files].
    apply (Forall_perm _ _ _ (Permutation_sym (sortFiles_perm _))).
    apply Forall_app. split; [exact IH|apply validFiles_wellFormed].
  - cbn [removeFile files]. rewrite Forall_forall in *.
    intros item Hin. apply filter_In in Hin. now apply IH.
  - constructor.
  - now rewrite mergeFiles_files.
Qed.

(** X2. [addFiles] lengthens the list by exactly the number of new files
    that are a PDF or an image, and it sets the message about skipped files
    exactly when that number is below the number of files offered. *)
Theorem addFiles_length (st : AppState) (newFiles : list File.t)
        (random : nat -> string) :
  List.length (files (addFiles st newFiles random))
  = (List.length (files st) + List.length (filter isValidFile newFiles))%nat /\
  (error (addFiles st newFiles random) = Some skippedMessage <->
   (List.length (filter isValidFile newFiles) < List.length newFiles)%nat) /\
  (error (addFiles st newFiles random) = None <->
   List.length (filter isValidFile newFiles) = List.length newFiles).
Proof.
  split; [|split].
  - cbn [addFiles files].
    rewrite (Permutation_length (sortFiles_perm _)), length_app.
    unfold validFiles. now rewrite mapi_from_length.
  - cbn [addFiles error]. unfold validFiles. rewrite mapi_from_length.
    destruct (Nat.ltb_spec (List.length (filter isValidFile newFiles))
                           (List.length newFiles)) as [Hlt|Hge].
    + split; [intros _; exact Hlt|reflexivity].
    + split; [discriminate|lia].
  - cbn [addFiles error]. unfold validFiles. rewrite mapi_from_length.
    pose proof (filter_length_le isValidFile newFiles) as Hle.
    destruct (Nat.ltb_spec (List.length (filter isValidFile newFiles))
                           (List.length newFiles)) as [Hlt|Hge].
    + split; [discriminate|lia].
    + split; [lia|reflexivity].
Qed.

(** X3. Adding files in two calls gives the list (and the cleared output)
    of adding them in one call, the random draws being the same. *)
Theorem addFiles_batches (st : AppState) (first second : list File.t)
        (random : nat -> string) :
  let n := List.length (filter isValidFile first) in
  let st2 := addFiles (addFiles st first random) second
                      (fun k => random (k + n)%nat) in
  let st1 := addFiles st (first ++ second) random in
  files st2 = files st1 /\ mergedPdfUrl st2 = mergedPdfUrl st1.
Proof.
  cbv zeta. split; [|reflexivity].
  cbn [addFiles files]. rewrite sortFiles_app_sorted. f_equal.
  rewrite <- app_assoc. f_equal.
  unfold validFiles. rewrite filter_app, mapi_from_app. f_equal.
  exact (mapi_from_offset (withMetadata random) _ _ 0).
Qed.

Lemma removeId_absent id l :
  (forall item, In item l -> (FileWithMetadata.id item =? id) = false) ->
  removeId id l = l.
Proof.
  intros Habs. apply forallb_filter_id. apply forallb_forall.
  intros item Hin. now rewrite (Habs item Hin).
Qed.

Lemma find_absent id l :
  (forall item, In item l -> (FileWithMetadata.id item =? id) = false) ->
  find (fun f => FileWithMetadata.id f =? id) l = None.
Proof.
  induction l as [|a l IH]; intros Habs; [reflexivity|]. cbn.
  rewrite (Habs a (or_introl eq_refl)). apply IH.
  intros item Hin. apply Habs. now right.
Qed.

(** X4. [removeFile] with an id that no listed item carries leaves the list
    as it is and revokes no preview, and still clears the merged output. *)
Theorem removeFile_absent_id (st : AppState) (id : string) :
  (forall item, In item (files st) ->
                (FileWithMetadata.id item =? id) = false) ->
  files (removeFile st id) = files st /\
  revokedPreview st id = None /\
  mergedPdfUrl (removeFile st id) = None /\
  error (removeFile st id) = error st.
Proof.
  intros Habs. split; [now apply removeId_absent|].
  split; [|split; reflexivity].
  unfold revokedPreview. now rewrite find_absent.
Qed.

(** X5. [removeFile] removes every item that carries the id and nothing
    else, whatever the order of two removals, and removing twice is
    removing once. *)
Theorem removeFile_compose (st : AppState) (id1 id2 : string) :
  (forall item, In item (files (removeFile st id1)) <->
                In item (files st) /\
                (FileWithMetadata.id item =? id1) = false) /\
  removeFile (removeFile st id1) id2 = removeFile (removeFile st id2) id1 /\
  removeFile (removeFile st id1) id1 = removeFile st id1.
Proof.
  split; [|split].
  - intros item. cbn [removeFile files]. rewrite filter_In.
    now rewrite negb_true_iff.
  - unfold removeFile. cbn [files isMerging error]. f_equal.
    apply filter_filter_comm.
  - unfold removeFile. cbn [files isMerging error]. f_equal.
    apply forallb_filter_id, forallb_filter.
Qed.

(** X6. The preview that [removeFile] revokes is the preview of an item
    that carried the id and is no longer listed afterwards. *)
Theorem revoked_preview_of_removed_item
        (st : AppState) (id url : string) :
  revokedPreview st id = Some url ->
  exists item,
    In item (files st) /\
    FileWithMetadata.id item = id /\
    FileWithMetadata.preview item = Some url /\
    ~ In item (files (removeFile st id)).
Proof.
  unfold revokedPreview.
  destruct (find _ (files st)) as [removed|] eqn:Ef; [|discriminate].
  apply find_some in Ef as [Hin Hid].
  destruct (FileWithMetadata.preview removed) as [u|] eqn:Ep; [|discriminate].
  destruct (u =? EmptyString); [discriminate|]. intros [= <-].
  exists removed. split; [exact Hin|].
  split; [now apply String.eqb_eq|]. split; [exact Ep|].
  cbn [removeFile files]. rewrite filter_In, Hid. cbn. intros [_ H]. discriminate.
Qed.

(** X7. Round trip: on a sorted list, adding one supported file under an id
    no listed item carries and then removing that id gives back the list. *)
Theorem add_then_remove (st : AppState) (f : File.t) (random : nat -> string) :
  StronglySorted timestampLe (files st) ->
  isValidFile f = true ->
  (forall item, In item (files st) ->
                (FileWithMetadata.id item =? random 0%nat) = false) ->
  files (removeFile (addFiles st [f] random) (random 0%nat)) = files st.
Proof.
  intros Hs Hv Hfresh. cbn [addFiles removeFile files].
  rewrite filter_sortFiles, filter_app, (removeId_absent _ _ Hfresh).
  unfold validFiles. cbn [filter]. rewrite Hv. cbn [mapi_from filter].
  unfold withMetadata at 1. cbn [FileWithMetadata.id].
  rewrite String.eqb_refl. cbn [negb]. rewrite app_nil_r.
  now apply sortFiles_sorted_id.
Qed.

Lemma filter_perm {A} (p : A -> bool) l1 l2 :
  Permutation l1 l2 -> Permutation (filter p l1) (filter p l2).
Proof.
  induction 1 as [|a l1 l2 _ IH|a b l|l1 l2 l3 _ IH1 _ IH2]; cbn.
  - constructor.
  - destruct (p a); [now constructor|exact IH].
  - destruct (p a), (p b); try reflexivity. apply perm_swap.
  - now transitivity (filter p l2).
Qed.

Lemma filter_timestamp_small t l :
  NoDup (map FileWithMetadata.timestamp l) ->
  (List.length (filter (hasTimestamp t) l) <= 1)%nat.
Proof.
  induction l as [|a l IH]; cbn; [lia|].
  intros Hnd. inversion Hnd as [|? ? Hnotin Hnd']; subst.
  specialize (IH Hnd'). unfold hasTimestamp at 1.
  destruct (FileWithMetadata.timestamp a =? t)%Z eqn:E; [|exact IH].
  apply Z.eqb_eq in E. cbn.
  destruct (filter (hasTimestamp t) l) as [|b r] eqn:Ef; [cbn; lia|].
  exfalso. apply Hnotin.
  assert (Hb : In b (filter (hasTimestamp t) l)) by (rewrite Ef; now left).
  apply filter_In in Hb as [Hb Ht]. apply Z.eqb_eq in Ht.
  rewrite E, <- Ht. now apply in_map.
Qed.

(** X8. When the time stamps are pairwise distinct, the sorted list does not
    depend on the order in which the items were supplied. *)
Theorem sort_order_irrelevant (l1 l2 : list FileWithMetadata.t) :
  Permutation l1 l2 ->
  NoDup (map FileWithMetadata.timestamp l1) ->
  sortFiles l1 = sortFiles l2.
Proof.
  intros Hp Hnd. apply stable_sort_unique; try apply sortFiles_sorted.
  intros t. rewrite !sortFiles_stable.
  pose proof (filter_perm (hasTimestamp t) _ _ Hp) as Hpf.
  pose proof (filter_timestamp_small t _ Hnd) as Hlen.
  destruct (filter (hasTimestamp t) l1) as [|a [|b r]] eqn:E1.
  - symmetry. now apply Permutation_nil.
  - symmetry. now apply Permutation_length_1_inv.
  - cbn in Hlen. lia.
Qed.

(** X9. In every state a session reaches, a merged output on display goes
    with no error message. *)
Theorem output_shown_without_error (actions : list Action) (url : string) :
  mergedPdfUrl (run actions) = Some url -> error (run actions) = None.
Proof.
  revert url. induction actions as [|a actions IH] using rev_ind; intros url.
  - discriminate.
  - rewrite run_snoc. destruct a; cbn [step].
    + discriminate.
    + discriminate.
    + apply IH.
    + unfold mergeFiles.
      destruct (List.length (files (run actions)) =? 0)%nat eqn:En;
        [apply IH|].
      destruct (mergeTry (files (run actions))) as [u|] eqn:Et; cbn.
      * reflexivity.
      * intros Hu. destruct (run_output _ _ Hu) as [H0|H1].
        -- rewrite H0 in En. discriminate.
        -- rewrite Et in H1. discriminate.
Qed.

(** ** Further properties of the loop of [mergeFiles] *)




Lemma mapM_app {A B} (f : A -> option B) l1 l2 :
  mapM f (l1 ++ l2) =
  (g1 <- mapM f l1 ;; g2 <- mapM f l2 ;; Some (g1 ++ g2)).
Proof.
  induction l1 as [|a l1 IH]; cbn.
  - destruct (mapM f l2); reflexivity.
  - destruct (f a); [|reflexivity]. cbn. rewrite IH.
    destruct (mapM f l1); [|reflexivity]. cbn.
    destruct (mapM f l2); reflexivity.
Qed.

(** X11. The loop over a list cut in two is the loop over the first part
    followed, from the document it leaves, by the loop over the second. *)
Theorem mergeLoop_app
        (first second : list FileWithMetadata.t) (mergedPdf : PDFDocument) :
  mergeLoop (first ++ second) mergedPdf =
  (doc <- mergeLoop first mergedPdf ;; mergeLoop second doc).
Proof.
  rewrite !mergeLoop_groups, mapM_app.
  destruct (mapM itemPages first) as [g1|]; [|reflexivity]. cbn.
  rewrite mergeLoop_groups.
  destruct (mapM itemPages second) as [g2|]; [|reflexivity]. cbn.
  now rewrite concat_app, app_assoc.
Qed.

(** X12. The loop only appends: the document it leaves is the document it
    started from, followed by the pages it assembles from the empty
    document. *)
Theorem mergeLoop_append_only
        (items : list FileWithMetadata.t) (mergedPdf doc : PDFDocument) :
  mergeLoop items mergedPdf = Some doc ->
  exists pages,
    mergeLoop items [] = Some pages /\ doc = mergedPdf ++ pages.
Proof.
  rewrite !mergeLoop_groups.
  destruct (mapM itemPages items) as [groups|]; [|discriminate]. cbn.
  intros [= <-]. now exists (List.concat groups).
Qed.

Lemma mapM_all_nil {A B} (f : A -> option (list B)) l :
  (forall a, In a l -> f a = Some []) ->
  exists groups, mapM f l = Some groups /\ List.concat groups = [].
Proof.
  induction l as [|a l IH]; intros Hall.
  - now exists [].
  - destruct IH as (groups & Hg & Hc); [intros b Hb; apply Hall; now right|].
    exists ([] :: groups). cbn.
    rewrite (Hall a (or_introl eq_refl)), Hg. now cbn.
Qed.

(** X13. A non-empty list that holds only images of unsupported subtypes is
    merged into a document with no page: [save] receives the empty document,
    and the merge succeeds or fails as that serialization does. *)
Theorem merge_only_unsupported_images (st : AppState) :
  files st <> [] ->
  forallb isUnsupportedImage (files st) = true ->
  mergeLoop (files st) [] = Some [] /\
  mergedPdfUrl (mergeFiles st) =
    match save [] with
    | Some pdfBytes => Some (createObjectURL pdfBytes)
    | None => mergedPdfUrl st
    end /\
  error (mergeFiles st) =
    match save [] with
    | Some _ => None
    | None => Some mergeErrorMessage
    end.
Proof.
  intros Hne Hall.
  assert (HL : mergeLoop (files st) [] = Some []).
  { assert (Hnil : forall item, In item (files st) -> itemPages item = Some []).
    { intros item Hin. rewrite forallb_forall in Hall.
      specialize (Hall item Hin). unfold isUnsupportedImage in Hall.
      unfold itemPages.
      destruct (FileWithMetadata.type item); [discriminate|].
      apply andb_true_iff in Hall as [Hj Hp].
      apply negb_true_iff in Hj, Hp. now rewrite Hj, Hp. }
    rewrite mergeLoop_groups.
    destruct (mapM_all_nil itemPages (files st) Hnil) as (groups & Hg & Hc).
    unfold PDFDocument in *. rewrite Hg. cbn. now rewrite Hc. }
  split; [exact HL|].
  unfold mergeFiles, mergeTry. rewrite HL. cbn [bind].
  destruct (files st) as [|item rest]; [contradiction|]. cbn [List.length Nat.eqb].
  destruct (save []); split; reflexivity.
Qed.

(** ** Further properties of the placement of an image *)

(** The options of an image page, in terms of the page and of the image. *)
Lemma image_page_options items doc size image options :
  mergeLoop items [] = Some doc ->
  In (ImagePage size image options) doc ->
  let s := Qmin ((Size.width size - 40) / PDFImage.width image)
                ((Size.height size - 40) / PDFImage.height image) in
  options =
  DrawOptions.mk ((Size.width size - PDFImage.width image * s) / 2)%Q
                 ((Size.height size - PDFImage.height image * s) / 2)%Q
                 (PDFImage.width image * s)%Q
                 (PDFImage.height image * s)%Q.
Proof.
  intros Hdoc Hin s.
  destruct (image_page_origin _ _ _ _ _ Hdoc Hin) as [Heq _].
  unfold drawImagePage, scaleToFit in Heq.
  injection Heq as Hsize Hopt. now subst.
Qed.

Lemma Qmul_div_cancel (a b : Q) : ~ (b == 0)%Q -> (b * (a / b) == a)%Q.
Proof. intros Hb. now field. Qed.

(** X14. The placed image lies within the page less its margins: it is at
    most PW-40 wide and PH-40 high and touches that box in one dimension at
    least, and it keeps 20 units or more to every edge of the page. *)
Theorem image_fits_box
        (items : list FileWithMetadata.t) (doc : PDFDocument)
        (size : Size.t) (image : PDFImage.t) (options : DrawOptions.t) :
  mergeLoop items [] = Some doc ->
  In (ImagePage size image options) doc ->
  (0 < PDFImage.width image)%Q ->
  (0 < PDFImage.height image)%Q ->
  (40 < Size.width size)%Q ->
  (40 < Size.height size)%Q ->
  (DrawOptions.width options <= Size.width size - 40)%Q /\
  (DrawOptions.height options <= Size.height size - 40)%Q /\
  ((DrawOptions.width options == Size.width size - 40)%Q \/
   (DrawOptions.height options == Size.height size - 40)%Q) /\
  (20 <= DrawOptions.x options)%Q /\
  (20 <= DrawOptions.y options)%Q /\
  (DrawOptions.x options + DrawOptions.width options
   <= Size.width size - 20)%Q /\
  (DrawOptions.y options + DrawOptions.height options
   <= Size.height size - 20)%Q.
Proof.
  intros Hdoc Hin HW HH HPW HPH.
  pose proof (image_page_options _ _ _ _ _ Hdoc Hin) as Hopt.
  cbv zeta in Hopt. rewrite Hopt. cbn [DrawOptions.x DrawOptions.y
                                        DrawOptions.width DrawOptions.height].
  set (a := ((Size.width size - 40) / PDFImage.width image)%Q).
  set (b := ((Size.height size - 40) / PDFImage.height image)%Q).
  assert (HW0 : ~ (PDFImage.width image == 0)%Q)
    by (intros E; rewrite E in HW; discriminate).
  assert (HH0 : ~ (PDFImage.height image == 0)%Q)
    by (intros E; rewrite E in HH; discriminate).
  assert (Ha : (PDFImage.width image * a == Size.width size - 40)%Q)
    by (apply Qmul_div_cancel; exact HW0).
  assert (Hb : (PDFImage.height image * b == Size.height size - 40)%Q)
    by (apply Qmul_div_cancel; exact HH0).
  assert (Hw : (PDFImage.width image * Qmin a b <= Size.width size - 40)%Q).
  { rewrite <- Ha. apply Qmult_le_l; [exact HW|apply Q.le_min_l]. }
  assert (Hh : (PDFImage.height image * Qmin a b <= Size.height size - 40)%Q).
  { rewrite <- Hb. apply Qmult_le_l; [exact HH|apply Q.le_min_r]. }
  assert (Ht : (PDFImage.width image * Qmin a b == Size.width size - 40)%Q \/
               (PDFImage.height image * Qmin a b == Size.height size - 40)%Q).
  { destruct (Q.min_spec a b) as [[_ E]|[_ E]]; rewrite E; [left|right];
      assumption. }
  set (w := (PDFImage.width image * Qmin a b)%Q) in *.
  set (h := (PDFImage.height image * Qmin a b)%Q) in *.
  repeat split; try assumption;
    unfold Qdiv; change (/ 2)%Q with (1 # 2)%Q; lra.
Qed.

(** X15. No cap at 1: an image that is smaller than the page less its
    margins is enlarged, never drawn smaller than its native size. *)
Theorem small_image_upscaled
        (items : list FileWithMetadata.t) (doc : PDFDocument)
        (size : Size.t) (image : PDFImage.t) (options : DrawOptions.t) :
  mergeLoop items [] = Some doc ->
  In (ImagePage size image options) doc ->
  (0 < PDFImage.width image)%Q ->
  (0 < PDFImage.height image)%Q ->
  (PDFImage.width image <= Size.width size - 40)%Q ->
  (PDFImage.height image <= Size.height size - 40)%Q ->
  (PDFImage.width image <= DrawOptions.width options)%Q /\
  (PDFImage.height image <= DrawOptions.height options)%Q.
Proof.
  intros Hdoc Hin HW HH HPW HPH.
  pose proof (image_page_options _ _ _ _ _ Hdoc Hin) as Hopt.
  cbv zeta in Hopt. rewrite Hopt. cbn [DrawOptions.width DrawOptions.height].
  set (a := ((Size.width size - 40) / PDFImage.width image)%Q).
  set (b := ((Size.height size - 40) / PDFImage.height image)%Q).
  assert (H1 : (1 <= Qmin a b)%Q).
  { apply Q.min_glb; apply Qle_shift_div_l; try assumption;
      now rewrite Qmult_1_l. }
  split.
  - rewrite <- (Qmult_1_r (PDFImage.width image)) at 1.
    now apply Qmult_le_l.
  - rewrite <- (Qmult_1_r (PDFImage.height image)) at 1.
    now apply Qmult_le_l.
Qed.

(** X16. As long as the list is not empty, a merged output on display in a
    state a session reaches designates the bytes that [save] yields for the
    document assembled from the list on display. *)
Theorem output_fresh_on_nonempty_list (actions : list Action) (url : string) :
  files (run actions) <> [] ->
  mergedPdfUrl (run actions) = Some url ->
  exists mergedPdf pdfBytes,
    mergeLoop (files (run actions)) [] = Some mergedPdf /\
    save mergedPdf = Some pdfBytes /\
    url = createObjectURL pdfBytes.
Proof.
  intros Hne Hu. destruct (run_output _ _ Hu) as [H0|H1];
    [contradiction|now apply mergeTry_loop].
Qed.

End App.

(** ** The claims on the sample instance *)

Abbreviation sampleRun :=
  (run nat sampleLoad sampleEmbedJpg sampleEmbedPng samplePageSize
       samplePreviewURL sampleObjectURL sampleSave).
Abbreviation sampleMergeFiles :=
  (mergeFiles nat sampleLoad sampleEmbedJpg sampleEmbedPng samplePageSize
              sampleObjectURL sampleSave).
Abbreviation sampleMergeTry :=
  (mergeTry nat sampleLoad sampleEmbedJpg sampleEmbedPng samplePageSize
            sampleObjectURL sampleSave).
Abbreviation sampleMergeLoop :=
  (mergeLoop nat sampleLoad sampleEmbedJpg sampleEmbedPng samplePageSize).
Abbreviation sampleItem := (withMetadata samplePreviewURL sampleRandom).
Abbreviation sampleImagePage := (drawImagePage nat samplePageSize).

(** The scenario of a corrupt PDF: one error, no output. *)
Lemma merge_malformed_fails_witness :
  let st := sampleRun [AddFiles [pdfX; notes] sampleRandom] in
  let item := sampleItem 0 pdfX in
  In item (files st) /\
  isMalformed nat sampleLoad sampleEmbedJpg sampleEmbedPng item = true /\
  sampleMergeTry (files st) = None /\
  error (sampleMergeFiles st) = Some mergeErrorMessage /\
  mergedPdfUrl (sampleMergeFiles st) = None.
Proof.
  cbv zeta.
  assert (Hin : In (sampleItem 0 pdfX)
                   (files (sampleRun [AddFiles [pdfX; notes] sampleRandom])))
    by (left; reflexivity).
  assert (Hm : isMalformed nat sampleLoad sampleEmbedJpg sampleEmbedPng
                           (sampleItem 0 pdfX) = true) by reflexivity.
  destruct (merge_malformed_fails nat sampleLoad sampleEmbedJpg sampleEmbedPng
              samplePageSize samplePreviewURL sampleObjectURL sampleSave
              _ _ Hin Hm) as (_ & Ht & He & _ & Hr).
  split; [exact Hin|]. split; [exact Hm|]. split; [exact Ht|].
  split; [exact He|].
  apply Hr. exists [AddFiles [pdfX; notes] sampleRandom]. reflexivity.
Defined.

(** The scenario of the spec: a PNG at 100, a two-page PDF at 50 and a GIF
    at 75 give the two PDF pages, then the image page. *)
Lemma merge_output_chronological_witness :
  let actions := [AddFiles [imageA; pdfB; imageC] sampleRandom] in
  let doc := [CopiedPage 1%nat; CopiedPage 2%nat;
              sampleImagePage (PDFImage.mk 100 50)] in
  sampleMergeLoop (files (sampleRun actions)) [] = Some doc /\
  StronglySorted timestampLe (files (sampleRun actions)) /\
  Permutation (files (sampleRun actions)) (inserted samplePreviewURL actions).
Proof.
  cbv zeta. split; [reflexivity|].
  destruct (merge_output_chronological nat sampleLoad sampleEmbedJpg
              sampleEmbedPng samplePageSize samplePreviewURL sampleObjectURL
              sampleSave
              [AddFiles [imageA; pdfB; imageC] sampleRandom]
              [CopiedPage 1%nat; CopiedPage 2%nat;
               sampleImagePage (PDFImage.mk 100 50)]
              eq_refl) as (Hs & Hp & _).
  split; assumption.
Defined.



(** C4 fails on the code: merging the empty list reports no failure. *)
Lemma merge_empty_reports_no_failure :
  files initialState = [] /\
  error (sampleMergeFiles initialState) = None /\
  mergedPdfUrl (sampleMergeFiles initialState) = None.
Proof. repeat split. Qed.

Lemma mergeFiles_empty_noop_witness :
  let st := sampleRun [AddFiles [notes] sampleRandom] in
  files st = [] /\ sampleMergeFiles st = st.
Proof.
  cbv zeta. split; [reflexivity|].
  apply (mergeFiles_empty_noop nat sampleLoad sampleEmbedJpg sampleEmbedPng
           samplePageSize sampleObjectURL sampleSave).
  reflexivity.
Defined.

Lemma merge_skips_unsupported_image_witness :
  let st := sampleRun [AddFiles [imageA; pdfB; imageC] sampleRandom] in
  let before := [sampleItem 1 pdfB] in
  let item := sampleItem 2 imageC in
  let after := [sampleItem 0 imageA] in
  files st = before ++ item :: after /\
  isUnsupportedImage item = true /\
  sampleMergeLoop (files st) [] = sampleMergeLoop (before ++ after) [] /\
  mergedPdfUrl (sampleMergeFiles st) = Some "blob:merged-ppp" /\
  error (sampleMergeFiles st) = None.
Proof.
  cbv zeta. split; [reflexivity|]. split; [reflexivity|].
  destruct (merge_skips_unsupported_image nat sampleLoad sampleEmbedJpg
              sampleEmbedPng samplePageSize sampleObjectURL sampleSave
              (sampleRun [AddFiles [imageA; pdfB; imageC] sampleRandom])
              [sampleItem 1 pdfB] [sampleItem 0 imageA] (sampleItem 2 imageC)
              eq_refl eq_refl) as (_ & Hl & _ & Hu & He).
  split; [exact Hl|]. split; [exact Hu|exact He].
Defined.

(** A 100 x 50 image on the 612 x 792 page: the width binds, the scale is
    572/100 and the placed size is 572 x 286. *)
Lemma image_scaled_to_fit_witness :
  let items := files (sampleRun [AddFiles [imageA] sampleRandom]) in
  let image := PDFImage.mk 100 50 in
  let s := (572 / 100)%Q in
  let options :=
    DrawOptions.mk ((612 - 100 * s) / 2)%Q ((792 - 50 * s) / 2)%Q
                   (100 * s)%Q (50 * s)%Q in
  let doc := [ImagePage samplePageSize image options] in
  sampleMergeLoop items [] = Some doc /\
  In (ImagePage samplePageSize image options) doc /\
  (0 < PDFImage.width image)%Q /\ (0 < PDFImage.height image)%Q /\
  (40 < Size.width samplePageSize)%Q /\ (40 < Size.height samplePageSize)%Q /\
  (DrawOptions.width options == 572)%Q /\
  (DrawOptions.height options == 286)%Q /\
  (DrawOptions.width options / DrawOptions.height options == 100 / 50)%Q.
Proof.
  cbv zeta.
  split; [reflexivity|]. split; [left; reflexivity|].
  split; [reflexivity|]. split; [reflexivity|].
  split; [reflexivity|]. split; [reflexivity|].
  destruct (image_scaled_to_fit nat sampleLoad sampleEmbedJpg sampleEmbedPng
              samplePageSize
              (files (sampleRun [AddFiles [imageA] sampleRandom]))
              _ samplePageSize (PDFImage.mk 100 50) _
              eq_refl (or_introl eq_refl) eq_refl eq_refl eq_refl eq_refl)
    as (_ & Hw & Hh & _ & Hr).
  split; [rewrite Hw; reflexivity|].
  split; [rewrite Hh; reflexivity|exact Hr].
Defined.

Lemma image_centered_witness :
  let items := files (sampleRun [AddFiles [imageA] sampleRandom]) in
  let image := PDFImage.mk 100 50 in
  let s := (572 / 100)%Q in
  let options :=
    DrawOptions.mk ((612 - 100 * s) / 2)%Q ((792 - 50 * s) / 2)%Q
                   (100 * s)%Q (50 * s)%Q in
  let doc := [ImagePage samplePageSize image options] in
  sampleMergeLoop items [] = Some doc /\
  In (ImagePage samplePageSize image options) doc /\
  (0 < PDFImage.width image)%Q /\ (0 < PDFImage.height image)%Q /\
  (DrawOptions.x options == 20)%Q /\
  (612 - (DrawOptions.x options + DrawOptions.width options) == 20)%Q /\
  (DrawOptions.y options
   == 792 - (DrawOptions.y options + DrawOptions.height options))%Q.
Proof.
  cbv zeta.
  split; [reflexivity|]. split; [left; reflexivity|].
  split; [reflexivity|]. split; [reflexivity|].
  destruct (image_centered nat sampleLoad sampleEmbedJpg sampleEmbedPng
              samplePageSize
              (files (sampleRun [AddFiles [imageA] sampleRandom]))
              _ samplePageSize (PDFImage.mk 100 50) _
              eq_refl (or_introl eq_refl) eq_refl eq_refl) as (Hl & Hb & _).
  split; [reflexivity|]. split; [rewrite <- Hl; reflexivity|exact Hb].
Defined.



(** C10 fails on the code: after a merge, "Clear All" empties the file list
    and leaves on display the output merged from the former list. *)
Theorem clear_all_keeps_stale_output :
  let st := sampleRun [AddFiles [pdfB] sampleRandom; MergeFiles; ClearAll] in
  files st = [] /\
  mergedPdfUrl st = Some "blob:merged-pp" /\
  mergedPdfUrl st = sampleMergeTry [sampleItem 0 pdfB] /\
  sampleMergeTry (files st) = Some "blob:merged-".
Proof. cbv zeta. repeat split. Qed.

(** ** The further properties on the sample instance *)

Lemma removeFile_absent_id_witness :
  let st := sampleRun [AddFiles [imageA; pdfB] sampleRandom; MergeFiles] in
  (mergedPdfUrl st = Some "blob:merged-ppp" /\
   error st = None) /\
  files (removeFile st "zz") = files st /\
  revokedPreview st "zz" = None /\
  mergedPdfUrl (removeFile st "zz") = None /\
  error (removeFile st "zz") = error st.
Proof.
  cbv zeta. split; [split; reflexivity|].
  apply removeFile_absent_id.
  intros item [<-|[<-|[]]]; reflexivity.
Defined.

Lemma revoked_preview_of_removed_item_witness :
  let st := sampleRun [AddFiles [imageA; pdfB] sampleRandom] in
  revokedPreview st "a" = Some "blob:a.png" /\
  exists item,
    In item (files st) /\
    FileWithMetadata.id item = "a" /\
    FileWithMetadata.preview item = Some "blob:a.png" /\
    ~ In item (files (removeFile st "a")).
Proof.
  cbv zeta. split; [reflexivity|].
  apply revoked_preview_of_removed_item. reflexivity.
Defined.

Lemma add_then_remove_witness :
  let st := sampleRun [AddFiles [pdfB] sampleRandom] in
  let random := fun k => sampleRandom (k + 1) in
  StronglySorted timestampLe (files st) /\
  isValidFile imageA = true /\
  files (removeFile (addFiles samplePreviewURL st [imageA] random) "b")
  = files st.
Proof.
  cbv zeta. split; [repeat constructor|]. split; [reflexivity|].
  apply (add_then_remove samplePreviewURL
           (sampleRun [AddFiles [pdfB] sampleRandom]) imageA
           (fun k => sampleRandom (k + 1))).
  - repeat constructor.
  - reflexivity.
  - intros item [<-|[]]. reflexivity.
Defined.

Lemma sort_order_irrelevant_witness :
  let a := sampleItem 0 imageA in
  let b := sampleItem 1 pdfB in
  Permutation [a; b] [b; a] /\
  NoDup (map FileWithMetadata.timestamp [a; b]) /\
  sortBy compareTimestamp [a; b] = sortBy compareTimestamp [b; a].
Proof.
  cbv zeta.
  assert (Hp : Permutation [sampleItem 0 imageA; sampleItem 1 pdfB]
                           [sampleItem 1 pdfB; sampleItem 0 imageA])
    by apply perm_swap.
  assert (Hn : NoDup (map FileWithMetadata.timestamp
                          [sampleItem 0 imageA; sampleItem 1 pdfB])).
  { constructor; [intros [H|[]]; discriminate H|].
    constructor; [intros []|constructor]. }
  split; [exact Hp|]. split; [exact Hn|].
  exact (sort_order_irrelevant _ _ Hp Hn).
Defined.

Lemma output_shown_without_error_witness :
  let actions := [AddFiles [notes; imageA; pdfB] sampleRandom; MergeFiles] in
  mergedPdfUrl (sampleRun actions) = Some "blob:merged-ppp" /\
  error (sampleRun actions) = None.
Proof.
  cbv zeta. split; [reflexivity|].
  apply (output_shown_without_error nat sampleLoad sampleEmbedJpg
           sampleEmbedPng samplePageSize samplePreviewURL sampleObjectURL
           sampleSave _ "blob:merged-ppp").
  reflexivity.
Defined.

Lemma mergeLoop_append_only_witness :
  let items := files (sampleRun [AddFiles [pdfB] sampleRandom]) in
  sampleMergeLoop items [CopiedPage 7%nat]
  = Some [CopiedPage 7%nat; CopiedPage 1%nat; CopiedPage 2%nat] /\
  exists pages,
    sampleMergeLoop items [] = Some pages /\
    [CopiedPage 7%nat; CopiedPage 1%nat; CopiedPage 2%nat]
    = [CopiedPage 7%nat] ++ pages.
Proof.
  cbv zeta. split; [reflexivity|].
  apply (mergeLoop_append_only nat sampleLoad sampleEmbedJpg sampleEmbedPng
           samplePageSize).
  reflexivity.
Defined.

Lemma merge_only_unsupported_images_witness :
  let st := sampleRun [AddFiles [imageC] sampleRandom] in
  files st <> [] /\
  forallb isUnsupportedImage (files st) = true /\
  sampleMergeLoop (files st) [] = Some [] /\
  mergedPdfUrl (sampleMergeFiles st) = Some "blob:merged-" /\
  error (sampleMergeFiles st) = None.
Proof.
  cbv zeta. split; [discriminate|]. split; [reflexivity|].
  apply (merge_only_unsupported_images nat sampleLoad sampleEmbedJpg
           sampleEmbedPng samplePageSize sampleObjectURL sampleSave).
  - discriminate.
  - reflexivity.
Defined.

Lemma image_fits_box_witness :
  let items := files (sampleRun [AddFiles [imageA] sampleRandom]) in
  let image := PDFImage.mk 100 50 in
  let s := (572 / 100)%Q in
  let options :=
    DrawOptions.mk ((612 - 100 * s) / 2)%Q ((792 - 50 * s) / 2)%Q
                   (100 * s)%Q (50 * s)%Q in
  sampleMergeLoop items [] = Some [ImagePage samplePageSize image options] /\
  (DrawOptions.width options <= 612 - 40)%Q /\
  (DrawOptions.height options <= 792 - 40)%Q /\
  (20 <= DrawOptions.x options)%Q /\
  (20 <= DrawOptions.y options)%Q.
Proof.
  cbv zeta. split; [reflexivity|].
  destruct (image_fits_box nat sampleLoad sampleEmbedJpg sampleEmbedPng
              samplePageSize
              (files (sampleRun [AddFiles [imageA] sampleRandom]))
              _ samplePageSize (PDFImage.mk 100 50) _
              eq_refl (or_introl eq_refl) eq_refl eq_refl eq_refl eq_refl)
    as (Hw & Hh & _ & Hx & Hy & _).
  split; [exact Hw|]. split; [exact Hh|]. split; [exact Hx|exact Hy].
Defined.

Lemma small_image_upscaled_witness :
  let items := files (sampleRun [AddFiles [imageA] sampleRandom]) in
  let image := PDFImage.mk 100 50 in
  let s := (572 / 100)%Q in
  let options :=
    DrawOptions.mk ((612 - 100 * s) / 2)%Q ((792 - 50 * s) / 2)%Q
                   (100 * s)%Q (50 * s)%Q in
  sampleMergeLoop items [] = Some [ImagePage samplePageSize image options] /\
  (DrawOptions.width options == 572)%Q /\
  (100 <= DrawOptions.width options)%Q /\
  (50 <= DrawOptions.height options)%Q.
Proof.
  cbv zeta. split; [reflexivity|]. split; [reflexivity|].
  apply (small_image_upscaled nat sampleLoad sampleEmbedJpg sampleEmbedPng
           samplePageSize
           (files (sampleRun [AddFiles [imageA] sampleRandom]))
           _ samplePageSize (PDFImage.mk 100 50) _
           eq_refl (or_introl eq_refl) eq_refl eq_refl).
  - discriminate.
  - discriminate.
Defined.

Lemma output_fresh_on_nonempty_list_witness :
  let actions := [AddFiles [pdfB] sampleRandom; MergeFiles;
                  RemoveFile "zz"; AddFiles [imageA] sampleRandom;
                  MergeFiles] in
  files (sampleRun actions) <> [] /\
  mergedPdfUrl (sampleRun actions) = Some "blob:merged-ppp" /\
  exists mergedPdf pdfBytes,
    sampleMergeLoop (files (sampleRun actions)) [] = Some mergedPdf /\
    sampleSave mergedPdf = Some pdfBytes /\
    "blob:merged-ppp" = sampleObjectURL pdfBytes.
Proof.
  cbv zeta. split; [discriminate|]. split; [reflexivity|].
  apply (output_fresh_on_nonempty_list nat sampleLoad sampleEmbedJpg
           sampleEmbedPng samplePageSize samplePreviewURL sampleObjectURL
           sampleSave).
  - discriminate.
  - reflexivity.
Defined.

